(** * seccomp/generate_bpf.py: the TIOCSTI/TIOCLINUX seccomp filter generator

    A shallow embedding of the generator script and the properties of the
    two classic-BPF programs it emits.

    Python integers are [Z]; a [bytes] object is a [list byte]; the
    local list [instructions] is an object of a store, allocated by
    [instructions = []] and mutated by [append]; [struct.pack] raises
    [struct.error] on a value outside its field, modelled by [Raise]. *)

From Stdlib Require Import ZArith List Lia Bool.
From Stdlib Require Import Strings.Byte.
From Stdlib Require Strings.String Strings.Ascii Numbers.DecimalString.
Import ListNotations.
Local Open Scope Z_scope.

(** ** Module constants *)

Definition SECCOMP_RET_KILL_PROCESS : Z := 0x80000000.
Definition SECCOMP_RET_ERRNO : Z := 0x00050000.
Definition SECCOMP_RET_ALLOW : Z := 0x7FFF0000.
Definition SECCOMP_RET_DATA : Z := 0x0000FFFF.

Definition BPF_LD : Z := 0x00.
Definition BPF_JMP : Z := 0x05.
Definition BPF_RET : Z := 0x06.
Definition BPF_W : Z := 0x00.
Definition BPF_ABS : Z := 0x20.
Definition BPF_JEQ : Z := 0x10.
Definition BPF_JSET : Z := 0x40.
Definition BPF_K : Z := 0x00.

Definition AUDIT_ARCH_X86_64 : Z := 0xC000003E.
Definition AUDIT_ARCH_AARCH64 : Z := 0xC00000B7.

Definition NR_IOCTL_X86_64 : Z := 16.
Definition NR_IOCTL_AARCH64 : Z := 29.

Definition X32_SYSCALL_BIT : Z := 0x40000000.

Definition TIOCSTI : Z := 0x5412.
Definition TIOCLINUX : Z := 0x541C.

Definition OFF_NR : Z := 0.
Definition OFF_ARCH : Z := 4.
Definition OFF_ARG1_LO : Z := 24.

Definition EPERM : Z := 1.

Definition RET_ERRNO (e : Z) : Z :=
  Z.lor SECCOMP_RET_ERRNO (Z.land e SECCOMP_RET_DATA).

(** ** Bytes and [struct.pack] *)

Definition bytes := list byte.

Definition byte_of_Z (z : Z) : byte :=
  match Byte.of_N (Z.to_N (z mod 256)) with
  | Some b => b
  | None => x00
  end.

Definition Z_of_byte (b : byte) : Z := Z.of_N (Byte.to_N b).

(** [n] bytes of [z], least significant first. *)
Fixpoint le_bytes (n : nat) (z : Z) : bytes :=
  match n with
  | O => []
  | S n' => byte_of_Z z :: le_bytes n' (z / 256)
  end.

(** The unsigned value of a little-endian byte string. *)
Fixpoint le_value (bs : bytes) : Z :=
  match bs with
  | [] => 0
  | b :: bs' => Z_of_byte b + 256 * le_value bs'
  end.

Inductive exn : Type :=
| struct_error   (* a value does not fit the field it is packed into *)
| bad_reference. (* a store location that holds no object *)

Inductive result (A : Type) : Type :=
| Ok (a : A)
| Raise (e : exn).
Arguments Ok {A} a.
Arguments Raise {A} e.

(** One unsigned field of [w] bytes in a [<] (little-endian, unpadded)
    format: [struct.pack] refuses a value outside [0, 256^w). *)
Definition pack_field (w : nat) (v : Z) : result bytes :=
  if (0 <=? v) && (v <? 256 ^ Z.of_nat w)
  then Ok (le_bytes w v)
  else Raise struct_error.

(** [struct.pack("<HBBI", h, b1, b2, i)]. *)
Definition pack_HBBI (h b1 b2 i : Z) : result bytes :=
  match pack_field 2 h with
  | Raise e => Raise e
  | Ok f0 =>
    match pack_field 1 b1 with
    | Raise e => Raise e
    | Ok f1 =>
      match pack_field 1 b2 with
      | Raise e => Raise e
      | Ok f2 =>
        match pack_field 4 i with
        | Raise e => Raise e
        | Ok f3 => Ok (f0 ++ f1 ++ f2 ++ f3)
        end
      end
    end
  end.

(** ** The instruction encoder *)

Definition bpf_stmt (code k : Z) : result bytes :=
  pack_HBBI code 0 0 k.

Definition bpf_jump (code k jt jf : Z) : result bytes :=
  pack_HBBI code jt jf k.

(** ** The store of list objects and the monad of the generator *)

Definition loc := nat.
Definition heap := list (list bytes).

Definition py (A : Type) : Type := heap -> result (A * heap).

Definition ret {A} (a : A) : py A := fun h => Ok (a, h).

Definition bind {A B} (m : py A) (f : A -> py B) : py B :=
  fun h =>
    match m h with
    | Ok (a, h') => f a h'
    | Raise e => Raise e
    end.

Definition lift {A} (r : result A) : py A :=
  fun h =>
    match r with
    | Ok a => Ok (a, h)
    | Raise e => Raise e
    end.

Notation "x <- m ;; k" := (bind m (fun x => k))
  (at level 61, m at next level, right associativity).
Notation "m ;;; k" := (bind m (fun _ => k))
  (at level 61, right associativity).

Fixpoint update_at {A} (n : nat) (f : A -> A) (l : list A) : list A :=
  match l, n with
  | [], _ => []
  | x :: l', O => f x :: l'
  | x :: l', S n' => x :: update_at n' f l'
  end.

(** [[]]: a fresh, empty list object. *)
Definition new_list : py loc :=
  fun h => Ok (length h, h ++ [[]]).

(** [l.append(x)]: the object at [l] is extended in place. *)
Definition list_append (l : loc) (x : bytes) : py unit :=
  fun h =>
    match nth_error h l with
    | Some _ => Ok (tt, update_at l (fun o => o ++ [x]) h)
    | None => Raise bad_reference
    end.

(** [b"".join(l)]. *)
Definition bytes_join (l : loc) : py bytes :=
  fun h =>
    match nth_error h l with
    | Some o => Ok (concat o, h)
    | None => Raise bad_reference
    end.

(** ** The policy assembler *)

Definition generate_x86_64_filter : py bytes :=
  instructions <- new_list ;;
  (* [0] Load architecture *)
  i <- lift (bpf_stmt (Z.lor (Z.lor BPF_LD BPF_W) BPF_ABS) OFF_ARCH) ;;
  list_append instructions i ;;;
  (* [1] Verify architecture == x86_64, else kill *)
  i <- lift (bpf_jump (Z.lor (Z.lor BPF_JMP BPF_JEQ) BPF_K) AUDIT_ARCH_X86_64 1 0) ;;
  list_append instructions i ;;;
  (* [2] Wrong architecture - kill process *)
  i <- lift (bpf_stmt (Z.lor BPF_RET BPF_K) SECCOMP_RET_KILL_PROCESS) ;;
  list_append instructions i ;;;
  (* [3] Load syscall number *)
  i <- lift (bpf_stmt (Z.lor (Z.lor BPF_LD BPF_W) BPF_ABS) OFF_NR) ;;
  list_append instructions i ;;;
  (* [4] Check x32 ABI bit - if set, deny with EPERM *)
  i <- lift (bpf_jump (Z.lor (Z.lor BPF_JMP BPF_JSET) BPF_K) X32_SYSCALL_BIT 0 1) ;;
  list_append instructions i ;;;
  (* [5] x32 syscall detected - return EPERM *)
  i <- lift (bpf_stmt (Z.lor BPF_RET BPF_K) (RET_ERRNO EPERM)) ;;
  list_append instructions i ;;;
  (* [6] Check if syscall == ioctl *)
  i <- lift (bpf_jump (Z.lor (Z.lor BPF_JMP BPF_JEQ) BPF_K) NR_IOCTL_X86_64 1 0) ;;
  list_append instructions i ;;;
  (* [7] Not ioctl - allow *)
  i <- lift (bpf_stmt (Z.lor BPF_RET BPF_K) SECCOMP_RET_ALLOW) ;;
  list_append instructions i ;;;
  (* [8] Load ioctl cmd (arg1, low 32 bits only) *)
  i <- lift (bpf_stmt (Z.lor (Z.lor BPF_LD BPF_W) BPF_ABS) OFF_ARG1_LO) ;;
  list_append instructions i ;;;
  (* [9] Check if cmd == TIOCSTI *)
  i <- lift (bpf_jump (Z.lor (Z.lor BPF_JMP BPF_JEQ) BPF_K) TIOCSTI 2 0) ;;
  list_append instructions i ;;;
  (* [10] Check if cmd == TIOCLINUX *)
  i <- lift (bpf_jump (Z.lor (Z.lor BPF_JMP BPF_JEQ) BPF_K) TIOCLINUX 1 0) ;;
  list_append instructions i ;;;
  (* [11] Not a blocked ioctl - allow *)
  i <- lift (bpf_stmt (Z.lor BPF_RET BPF_K) SECCOMP_RET_ALLOW) ;;
  list_append instructions i ;;;
  (* [12] Blocked ioctl - return EPERM *)
  i <- lift (bpf_stmt (Z.lor BPF_RET BPF_K) (RET_ERRNO EPERM)) ;;
  list_append instructions i ;;;
  bytes_join instructions.

Definition generate_aarch64_filter : py bytes :=
  instructions <- new_list ;;
  (* [0] Load architecture *)
  i <- lift (bpf_stmt (Z.lor (Z.lor BPF_LD BPF_W) BPF_ABS) OFF_ARCH) ;;
  list_append instructions i ;;;
  (* [1] Verify architecture matches, else kill *)
  i <- lift (bpf_jump (Z.lor (Z.lor BPF_JMP BPF_JEQ) BPF_K) AUDIT_ARCH_AARCH64 1 0) ;;
  list_append instructions i ;;;
  (* [2] Wrong architecture - kill process *)
  i <- lift (bpf_stmt (Z.lor BPF_RET BPF_K) SECCOMP_RET_KILL_PROCESS) ;;
  list_append instructions i ;;;
  (* [3] Load syscall number *)
  i <- lift (bpf_stmt (Z.lor (Z.lor BPF_LD BPF_W) BPF_ABS) OFF_NR) ;;
  list_append instructions i ;;;
  (* [4] Check if syscall == ioctl *)
  i <- lift (bpf_jump (Z.lor (Z.lor BPF_JMP BPF_JEQ) BPF_K) NR_IOCTL_AARCH64 1 0) ;;
  list_append instructions i ;;;
  (* [5] Not ioctl - allow *)
  i <- lift (bpf_stmt (Z.lor BPF_RET BPF_K) SECCOMP_RET_ALLOW) ;;
  list_append instructions i ;;;
  (* [6] Load ioctl cmd (arg1, low 32 bits only) *)
  i <- lift (bpf_stmt (Z.lor (Z.lor BPF_LD BPF_W) BPF_ABS) OFF_ARG1_LO) ;;
  list_append instructions i ;;;
  (* [7] Check if cmd == TIOCSTI *)
  i <- lift (bpf_jump (Z.lor (Z.lor BPF_JMP BPF_JEQ) BPF_K) TIOCSTI 2 0) ;;
  list_append instructions i ;;;
  (* [8] Check if cmd == TIOCLINUX *)
  i <- lift (bpf_jump (Z.lor (Z.lor BPF_JMP BPF_JEQ) BPF_K) TIOCLINUX 1 0) ;;
  list_append instructions i ;;;
  (* [9] Not a blocked ioctl - allow *)
  i <- lift (bpf_stmt (Z.lor BPF_RET BPF_K) SECCOMP_RET_ALLOW) ;;
  list_append instructions i ;;;
  (* [10] Blocked ioctl - return EPERM *)
  i <- lift (bpf_stmt (Z.lor BPF_RET BPF_K) (RET_ERRNO EPERM)) ;;
  list_append instructions i ;;;
  bytes_join instructions.

(** The two generators that [main] runs, indexed so that a property of
    both can be stated once, with the constants each one uses. *)
Inductive target : Type := x86_64 | aarch64.

Definition generate_filter (t : target) : py bytes :=
  match t with
  | x86_64 => generate_x86_64_filter
  | aarch64 => generate_aarch64_filter
  end.

Definition AUDIT_ARCH (t : target) : Z :=
  match t with
  | x86_64 => AUDIT_ARCH_X86_64
  | aarch64 => AUDIT_ARCH_AARCH64
  end.

Definition NR_IOCTL (t : target) : Z :=
  match t with
  | x86_64 => NR_IOCTL_X86_64
  | aarch64 => NR_IOCTL_AARCH64
  end.

(** ** The filter machine *)

(** The machine that runs the emitted records, and the evaluation
    context it reads, are the kernel's and no part of the script; what
    follows models them from the spec and from the constants the script
    names them by. *)

(** Modelled from the spec: the instruction record of its sections 3 and
    6, missing from the script, which only packs it: operation and mode,
    true offset, false offset, operand. *)
Record sock_filter : Type := mk_insn {
  code : Z;
  jt : Z;
  jf : Z;
  k : Z
}.

(** Modelled from the spec: the filter evaluation context of its
    glossary, missing from the script: syscall number, architecture,
    instruction pointer and the six syscall arguments. *)
Record seccomp_data : Type := mk_data {
  nr : Z;
  arch : Z;
  instruction_pointer : Z;
  args : list Z
}.

Definition u32 (z : Z) : Z := z mod 2 ^ 32.

Definition in_range (bits z : Z) : bool := (0 <=? z) && (z <? 2 ^ bits).

(** Modelled from the spec: the widths of the context's fields, missing
    from the script: two 32-bit fields, a 64-bit instruction pointer and
    six 64-bit arguments. *)
Definition valid_data (d : seccomp_data) : bool :=
  in_range 32 (nr d) && in_range 32 (arch d)
  && in_range 64 (instruction_pointer d)
  && (length (args d) =? 6)%nat && forallb (in_range 64) (args d).

(** Modelled from the spec: which offsets a load may read, missing from
    the script: the aligned words of the 64-byte context. *)
Definition loadable (off : Z) : bool :=
  (0 <=? off) && (off <? 64) && (off mod 4 =? 0).

(** Modelled from the spec: the 32-bit word at byte offset [off] of the
    context, missing from the script, which names the offsets [OFF_NR],
    [OFF_ARCH] and [OFF_ARG1_LO] of a little-endian layout: the number
    at 0, the architecture at 4, the instruction pointer at 8 and the
    arguments from 16, each 64-bit field low word first. *)
Definition load_word (d : seccomp_data) (off : Z) : option Z :=
  if negb (loadable off) then None
  else if off =? 0 then Some (u32 (nr d))
  else if off =? 4 then Some (u32 (arch d))
  else if off =? 8 then Some (u32 (instruction_pointer d))
  else if off =? 12 then Some (u32 (instruction_pointer d / 2 ^ 32))
  else
    let a := nth (Z.to_nat ((off - 16) / 8)) (args d) 0 in
    if (off - 16) mod 8 =? 0 then Some (u32 a) else Some (u32 (a / 2 ^ 32)).

(** Reading the emitted bytes back as records: the inverse of
    [struct.pack("<HBBI", ...)] on each group of eight bytes. *)
Fixpoint unpack_program (bs : bytes) : option (list sock_filter) :=
  match bs with
  | [] => Some []
  | b0 :: b1 :: b2 :: b3 :: b4 :: b5 :: b6 :: b7 :: rest =>
    match unpack_program rest with
    | Some p =>
      Some ({| code := le_value [b0; b1];
               jt := Z_of_byte b2;
               jf := Z_of_byte b3;
               k := le_value [b4; b5; b6; b7] |} :: p)
    | None => None
    end
  | _ => None
  end.

Inductive outcome : Type :=
| Returned (v : Z)   (* a return instruction ended the evaluation *)
| FellOffEnd         (* control left the sequence *)
| BadInstruction     (* an operation the machine below does not know *)
| BadLoad            (* a load outside the context *)
| OutOfFuel
| Malformed.         (* not a whole number of records *)

Definition is_ld (x : sock_filter) : bool :=
  code x =? Z.lor (Z.lor BPF_LD BPF_W) BPF_ABS.
Definition is_jeq (x : sock_filter) : bool :=
  code x =? Z.lor (Z.lor BPF_JMP BPF_JEQ) BPF_K.
Definition is_jset (x : sock_filter) : bool :=
  code x =? Z.lor (Z.lor BPF_JMP BPF_JSET) BPF_K.
Definition is_ret (x : sock_filter) : bool :=
  code x =? Z.lor BPF_RET BPF_K.
Definition is_jump (x : sock_filter) : bool := is_jeq x || is_jset x.

(** The index a jump at [pc] continues at: the instruction after it, plus
    the offset chosen by the test. *)
Definition jump_target (pc : nat) (x : sock_filter) (taken : bool) : nat :=
  (pc + 1 + Z.to_nat (if taken then jt x else jf x))%nat.

(** Modelled from the spec: the evaluation of a sequence, missing from
    the script, for the four operations the script emits. The
    accumulator [acc] holds the last loaded word; a jump skips [jt] or
    [jf] instructions forward according to its test ([acc] equal to the
    operand, or sharing a set bit with it); a return ends the evaluation
    with its operand. *)
Fixpoint bpf_exec (fuel : nat) (prog : list sock_filter) (d : seccomp_data)
    (acc : Z) (pc : nat) : outcome :=
  match fuel with
  | O => OutOfFuel
  | S fuel' =>
    match nth_error prog pc with
    | None => FellOffEnd
    | Some x =>
      if is_ld x then
        match load_word d (k x) with
        | Some w => bpf_exec fuel' prog d w (S pc)
        | None => BadLoad
        end
      else if is_jeq x then
        bpf_exec fuel' prog d acc (jump_target pc x (acc =? k x))
      else if is_jset x then
        bpf_exec fuel' prog d acc
                 (jump_target pc x (negb (Z.land acc (k x) =? 0)))
      else if is_ret x then Returned (k x)
      else BadInstruction
    end
  end.

(** Every step moves forward, so one step per instruction and one more
    to notice the end is all a run can take. *)
Definition bpf_run (prog : list sock_filter) (d : seccomp_data) : outcome :=
  bpf_exec (S (length prog)) prog d 0 0.

Definition bpf_simulate (bs : bytes) (d : seccomp_data) : outcome :=
  match unpack_program bs with
  | Some prog => bpf_run prog d
  | None => Malformed
  end.

(** One invocation of a generator in store [h], its output then run on
    the context [d]. *)
Definition simulate (gen : py bytes) (h : heap) (d : seccomp_data)
  : result outcome :=
  match gen h with
  | Ok (bs, _) => Ok (bpf_simulate bs d)
  | Raise e => Raise e
  end.

(** The three terminal actions of the policy. *)
Definition KILL : Z := SECCOMP_RET_KILL_PROCESS.
Definition ALLOW : Z := SECCOMP_RET_ALLOW.
Definition DENY : Z := RET_ERRNO EPERM.

(** The records a generator emits in store [h], read back. *)
Definition emitted_program (gen : py bytes) (h : heap)
  : option (list sock_filter) :=
  match gen h with
  | Ok (bs, _) => unpack_program bs
  | Raise _ => None
  end.

(** The low 32 bits of the second syscall argument. *)
Definition arg1_lo (d : seccomp_data) : Z := u32 (nth 1 (args d) 0).

(** Instruction counts of the two variants. *)
Definition insn_count (t : target) : nat :=
  match t with
  | x86_64 => 13
  | aarch64 => 11
  end.

(** The indices control can move to from the instruction [x] at [pc]. *)
Definition successors (pc : nat) (x : sock_filter) : list nat :=
  if is_ld x then [S pc]
  else if is_jump x then [jump_target pc x true; jump_target pc x false]
  else [].

(** The two emitted sequences as the machine sees them, one record per
    line: operation, true offset, false offset, operand. That these are
    what the generators emit is [emitted_x86_64] and [emitted_aarch64]. *)
Definition x86_64_listing : list sock_filter :=
  [ mk_insn 0x20 0 0 4;            (*  0: ld  [4]                  *)
    mk_insn 0x15 1 0 0xC000003E;   (*  1: jeq ARCH_X86_64, 3, 2    *)
    mk_insn 0x06 0 0 0x80000000;   (*  2: ret KILL_PROCESS         *)
    mk_insn 0x20 0 0 0;            (*  3: ld  [0]                  *)
    mk_insn 0x45 0 1 0x40000000;   (*  4: jset 0x40000000, 5, 6    *)
    mk_insn 0x06 0 0 0x00050001;   (*  5: ret ERRNO|EPERM          *)
    mk_insn 0x15 1 0 16;           (*  6: jeq 16, 8, 7             *)
    mk_insn 0x06 0 0 0x7FFF0000;   (*  7: ret ALLOW                *)
    mk_insn 0x20 0 0 24;           (*  8: ld  [24]                 *)
    mk_insn 0x15 2 0 0x5412;       (*  9: jeq TIOCSTI, 12, 10      *)
    mk_insn 0x15 1 0 0x541C;       (* 10: jeq TIOCLINUX, 12, 11    *)
    mk_insn 0x06 0 0 0x7FFF0000;   (* 11: ret ALLOW                *)
    mk_insn 0x06 0 0 0x00050001 ]. (* 12: ret ERRNO|EPERM          *)

Definition aarch64_listing : list sock_filter :=
  [ mk_insn 0x20 0 0 4;            (*  0: ld  [4]                  *)
    mk_insn 0x15 1 0 0xC00000B7;   (*  1: jeq ARCH_AARCH64, 3, 2   *)
    mk_insn 0x06 0 0 0x80000000;   (*  2: ret KILL_PROCESS         *)
    mk_insn 0x20 0 0 0;            (*  3: ld  [0]                  *)
    mk_insn 0x15 1 0 29;           (*  4: jeq 29, 6, 5             *)
    mk_insn 0x06 0 0 0x7FFF0000;   (*  5: ret ALLOW                *)
    mk_insn 0x20 0 0 24;           (*  6: ld  [24]                 *)
    mk_insn 0x15 2 0 0x5412;       (*  7: jeq TIOCSTI, 10, 8       *)
    mk_insn 0x15 1 0 0x541C;       (*  8: jeq TIOCLINUX, 10, 9     *)
    mk_insn 0x06 0 0 0x7FFF0000;   (*  9: ret ALLOW                *)
    mk_insn 0x06 0 0 0x00050001 ]. (* 10: ret ERRNO|EPERM          *)

Definition listing (t : target) : list sock_filter :=
  match t with
  | x86_64 => x86_64_listing
  | aarch64 => aarch64_listing
  end.

(** The decision tree of the policy as the spec words it (section 4.2,
    steps 2 to 8), as a function of the three words the filter loads:
    architecture [a], syscall number [n], request code [c]. It is not
    part of the script; [run_policy] compares the emitted code with it. *)
Definition x32_rejected (t : target) (n : Z) : bool :=
  match t with
  | x86_64 => negb (Z.land n X32_SYSCALL_BIT =? 0)
  | aarch64 => false
  end.

Definition policy (t : target) (a n c : Z) : Z :=
  if negb (a =? AUDIT_ARCH t) then KILL
  else if x32_rejected t n then DENY
  else if negb (n =? NR_IOCTL t) then ALLOW
  else if (c =? TIOCSTI) || (c =? TIOCLINUX) then DENY
  else ALLOW.

(** What keeps a run inside a sequence of [n] records: a load reads
    inside the context and is not last, both targets of a jump are
    records of the sequence, and anything else is a return. *)
Definition insn_forward (n pc : nat) (x : sock_filter) : bool :=
  if is_ld x then loadable (k x) && (S pc <? n)%nat
  else if is_jump x then
    (jump_target pc x true <? n)%nat && (jump_target pc x false <? n)%nat
  else is_ret x.

Fixpoint forall_indexed {A} (p : nat -> A -> bool) (i : nat) (l : list A)
  : bool :=
  match l with
  | [] => true
  | x :: r => p i x && forall_indexed p (S i) r
  end.

Definition forward_program (prog : list sock_filter) : bool :=
  forall_indexed (insn_forward (length prog)) 0 prog.

(** The bounds of claim C6 on one record: non-negative offsets whose
    targets are below [n]. *)
Definition jump_in_bounds (n : nat) (i : nat) (x : sock_filter) : bool :=
  if is_jump x then
    (0 <=? jt x) && (Z.of_nat i + 1 + jt x <? Z.of_nat n)
    && (0 <=? jf x) && (Z.of_nat i + 1 + jf x <? Z.of_nat n)
  else true.

Definition is_terminal (v : Z) : bool :=
  (v =? KILL) || (v =? ALLOW) || (v =? DENY).

(** A context with syscall number [n], architecture [a] and second
    argument [a1], all else zero. *)
Definition ctx (n a a1 : Z) : seccomp_data :=
  mk_data n a 0 [0; a1; 0; 0; 0; 0].

(** ** The entry point *)

(** One record as the encoder packs it: [bpf_stmt] is [bpf_jump] with
    both offsets zero, so this covers both forms. *)
Definition encode_insn (x : sock_filter) : result bytes :=
  bpf_jump (code x) (k x) (jt x) (jf x).

(** The values [struct.pack("<HBBI", c, t, f, kk)] accepts. *)
Definition fits (c t f kk : Z) : Prop :=
  0 <= c < 2 ^ 16 /\ 0 <= t < 2 ^ 8 /\ 0 <= f < 2 ^ 8 /\ 0 <= kk < 2 ^ 32.

(** A generator that emits [bs] whatever the store it is invoked in. *)
Definition emits (gen : py bytes) (bs : bytes) : Prop :=
  forall h, exists h', gen h = Ok (bs, h').

(** What a generator returns, and the list of records it builds, when
    run in the empty store; [generate_filter_emitted] shows that it
    returns and builds the same in every store. *)
Definition emitted_bytes (t : target) : bytes :=
  match generate_filter t [] with
  | Ok (bs, _) => bs
  | Raise _ => []
  end.

Definition emitted_records (t : target) : list bytes :=
  match generate_filter t [] with
  | Ok (_, [recs]) => recs
  | _ => []
  end.

(** [main] calls into the machine it runs on: it writes two files and
    prints. What a call does there (which file a path names, how much of
    the data reaches it, what a stream accepts) is not the script's; the
    model leaves it to an environment that answers every call, and
    keeps the calls made. A [Path] is its parts. *)
Definition path := list String.string.

(** [script_dir / name], for a [name] of one part. *)
Definition joinpath (dir : path) (name : String.string) : path :=
  dir ++ [name].

Inductive effect : Type :=
| WriteBytes (p : path) (data : bytes)   (* [p.write_bytes(data)] *)
| Print (s : String.string).             (* [print(s)] *)

(** The answer to a call: it returns (for [write_bytes], with the number
    of bytes written), or it raises the exception named. *)
Inductive reply : Type :=
| Returns (n : nat)
| Raises (x : String.string).

Inductive io_exn : Type :=
| py_exn (e : exn)               (* raised by the script's own code *)
| env_exn (x : String.string).   (* raised by a call into the machine *)

(** The state of a run: the store of the script, the state [env] of
    the machine, and the calls made so far, the last one included when
    it raised. *)
Record world (env : Type) : Type := mk_world {
  w_heap : heap;
  w_env : env;
  w_trace : list effect
}.
Arguments mk_world {env} _ _ _.
Arguments w_heap {env} _.
Arguments w_env {env} _.
Arguments w_trace {env} _.

Inductive io_result (env A : Type) : Type :=
| Done (a : A) (w : world env)
| Failed (e : io_exn) (w : world env).
Arguments Done {env A} a w.
Arguments Failed {env A} e w.

Definition io (env A : Type) : Type := world env -> io_result env A.


Definition io_bind {env A B} (m : io env A) (f : A -> io env B)
  : io env B :=
  fun w =>
    match m w with
    | Done a w' => f a w'
    | Failed e w' => Failed e w'
    end.

Declare Scope io_scope.
Delimit Scope io_scope with io.
Notation "x <- m ;; k" := (io_bind m (fun x => k))
  (at level 61, m at next level, right associativity) : io_scope.
Notation "m ;;; k" := (io_bind m (fun _ => k))
  (at level 61, right associativity) : io_scope.

(** A call of a generator from [main]. *)
Definition run_py {env A} (m : py A) : io env A :=
  fun w =>
    match m (w_heap w) with
    | Ok (a, h') => Done a (mk_world h' (w_env w) (w_trace w))
    | Raise e => Failed (py_exn e) w
    end.

(** [{n}] in an f-string, for a length. *)
Definition format_nat (n : nat) : String.string :=
  DecimalString.NilEmpty.string_of_uint (Nat.to_uint n).

Import String.StringSyntax.
Delimit Scope string_scope with string.

Section Main.

(** The machine: its states and its answer to a call in a state. *)
Variable env : Type.
Variable answer : env -> effect -> reply * env.

(** [Path(__file__).parent] and [str] of a path, which depend on where
    and on which platform the script runs. *)
Variables (script_dir : path) (path_str : path -> String.string).

Local Infix "+++" := String.append (at level 60, right associativity).

(** One call into the machine. *)
Definition perform (e : effect) : io env nat :=
  fun w =>
    let (r, s') := answer (w_env w) e in
    let w' := mk_world (w_heap w) s' (w_trace w ++ [e]) in
    match r with
    | Returns n => Done n w'
    | Raises x => Failed (env_exn x) w'
    end.

Definition write_bytes (p : path) (data : bytes) : io env nat :=
  perform (WriteBytes p data).

Definition print (s : String.string) : io env unit :=
  (perform (Print s) ;;; fun w => Done tt w)%io.

Definition generated_line (p : path) (filter : bytes) : String.string :=
  ("Generated "%string +++ path_str p +++ " ("%string
   +++ format_nat (length filter) +++ " bytes, "%string
   +++ format_nat (length filter / 8)%nat +++ " instructions)"%string).

Definition main : io env unit :=
  ((* Generate x86_64 filter *)
   x86_64_filter <- run_py generate_x86_64_filter ;;
   let x86_64_path :=
     joinpath script_dir "tiocsti_filter_x86_64.bpf"%string in
   write_bytes x86_64_path x86_64_filter ;;;
   print (generated_line x86_64_path x86_64_filter) ;;;
   (* Generate aarch64 filter *)
   aarch64_filter <- run_py generate_aarch64_filter ;;
   let aarch64_path :=
     joinpath script_dir "tiocsti_filter_aarch64.bpf"%string in
   write_bytes aarch64_path aarch64_filter ;;;
   print (generated_line aarch64_path aarch64_filter) ;;;
   print (String.String (Ascii.ascii_of_nat 10) "To use with bwrap:"%string) ;;;
   print ("  bwrap --seccomp 3 3<"%string +++ path_str x86_64_path
          +++ " [other-options] /bin/sh"%string))%io.

End Main.

Definition x86_64_path (script_dir : path) : path :=
  joinpath script_dir "tiocsti_filter_x86_64.bpf"%string.

Definition aarch64_path (script_dir : path) : path :=
  joinpath script_dir "tiocsti_filter_aarch64.bpf"%string.

(** The arguments of the four [print] calls of [main]. *)
Definition line_x86_64 (script_dir : path)
    (path_str : path -> String.string) : String.string :=
  String.append "Generated "%string
    (String.append (path_str (x86_64_path script_dir))
                   " (104 bytes, 13 instructions)"%string).

Definition line_aarch64 (script_dir : path)
    (path_str : path -> String.string) : String.string :=
  String.append "Generated "%string
    (String.append (path_str (aarch64_path script_dir))
                   " (88 bytes, 11 instructions)"%string).

Definition line_usage : String.string :=
  String.String (Ascii.ascii_of_nat 10) "To use with bwrap:"%string.

Definition line_command (script_dir : path)
    (path_str : path -> String.string) : String.string :=
  String.append "  bwrap --seccomp 3 3<"%string
    (String.append (path_str (x86_64_path script_dir))
                   " [other-options] /bin/sh"%string).

(** The six calls of a run of [main] in which every call returns, for
    the bytes [bx] and [ba] of the two filters. *)
Definition main_calls (script_dir : path)
    (path_str : path -> String.string) (bx ba : bytes) : list effect :=
  [ WriteBytes (x86_64_path script_dir) bx;
    Print (line_x86_64 script_dir path_str);
    WriteBytes (aarch64_path script_dir) ba;
    Print (line_aarch64 script_dir path_str);
    Print line_usage;
    Print (line_command script_dir path_str) ].

(** * Properties *)

(** ** The store *)

Section Store.

Variables (h : heap) (o : list bytes).

Lemma nth_error_last : nth_error (h ++ [o]) (length h) = Some o.
Proof.
  induction h as [|x h' IH]; simpl; [reflexivity | exact IH].
Qed.

Lemma update_at_last (f : list bytes -> list bytes) :
  update_at (length h) f (h ++ [o]) = h ++ [f o].
Proof.
  induction h as [|x h' IH]; simpl; [reflexivity | now rewrite IH].
Qed.

Lemma list_append_last (x : bytes) :
  list_append (length h) x (h ++ [o]) = Ok (tt, h ++ [o ++ [x]]).
Proof.
  unfold list_append. now rewrite nth_error_last, update_at_last.
Qed.

Lemma bytes_join_last :
  bytes_join (length h) (h ++ [o]) = Ok (concat o, h ++ [o]).
Proof.
  unfold bytes_join. now rewrite nth_error_last.
Qed.

End Store.

Lemma bind_ok {A B} (m : py A) (f : A -> py B) h a h' :
  m h = Ok (a, h') -> bind m f h = f a h'.
Proof. intros E. unfold bind. now rewrite E. Qed.

Lemma lift_ok {A} (r : result A) (a : A) h :
  r = Ok a -> lift r h = Ok (a, h).
Proof. intros ->. reflexivity. Qed.

(** One statement of a generator: an encoder call whose arguments are
    constants, the append of its record, or the final join. *)
Ltac generator_step :=
  first
    [ erewrite bind_ok by (apply lift_ok; vm_compute; reflexivity)
    | erewrite bind_ok by apply list_append_last
    | rewrite bytes_join_last ].

Ltac run_generator :=
  erewrite bind_ok by (unfold new_list; reflexivity);
  repeat generator_step.

(** A generator allocates its own list: in any store it emits what it
    emits in the empty one and leaves the objects it found untouched. *)
Lemma generate_x86_64_frame (h : heap) :
  generate_x86_64_filter h =
  match generate_x86_64_filter [] with
  | Ok (bs, h0) => Ok (bs, h ++ h0)
  | Raise e => Raise e
  end.
Proof.
  let r := eval vm_compute in (generate_x86_64_filter []) in
  change (generate_x86_64_filter []) with r.
  cbv iota beta.
  unfold generate_x86_64_filter.
  run_generator. reflexivity.
Qed.

Lemma generate_aarch64_frame (h : heap) :
  generate_aarch64_filter h =
  match generate_aarch64_filter [] with
  | Ok (bs, h0) => Ok (bs, h ++ h0)
  | Raise e => Raise e
  end.
Proof.
  let r := eval vm_compute in (generate_aarch64_filter []) in
  change (generate_aarch64_filter []) with r.
  cbv iota beta.
  unfold generate_aarch64_filter.
  run_generator. reflexivity.
Qed.

Lemma generate_filter_frame (t : target) (h : heap) :
  generate_filter t h =
  match generate_filter t [] with
  | Ok (bs, h0) => Ok (bs, h ++ h0)
  | Raise e => Raise e
  end.
Proof.
  destruct t; [apply generate_x86_64_frame | apply generate_aarch64_frame].
Qed.

(** ** What the generators emit *)

Lemma emitted_program_frame (t : target) (h : heap) :
  emitted_program (generate_filter t) h =
  emitted_program (generate_filter t) [].
Proof.
  unfold emitted_program. rewrite generate_filter_frame.
  destruct (generate_filter t []) as [[bs h0]|e]; reflexivity.
Qed.

Lemma emitted_x86_64 :
  emitted_program generate_x86_64_filter [] = Some x86_64_listing.
Proof. vm_compute. reflexivity. Qed.

Lemma emitted_aarch64 :
  emitted_program generate_aarch64_filter [] = Some aarch64_listing.
Proof. vm_compute. reflexivity. Qed.

Lemma emitted_listing (t : target) (h : heap) :
  emitted_program (generate_filter t) h = Some (listing t).
Proof.
  rewrite emitted_program_frame.
  destruct t; [exact emitted_x86_64 | exact emitted_aarch64].
Qed.

Lemma simulate_emitted (gen : py bytes) h prog d :
  emitted_program gen h = Some prog ->
  simulate gen h d = Ok (bpf_run prog d).
Proof.
  unfold emitted_program, simulate, bpf_simulate.
  destruct (gen h) as [[bs h']|e]; [|discriminate].
  now intros ->.
Qed.

Lemma simulate_listing (t : target) h d :
  simulate (generate_filter t) h d = Ok (bpf_run (listing t) d).
Proof. apply simulate_emitted, emitted_listing. Qed.

(** ** Loads from the context *)

Lemma load_arch d : load_word d OFF_ARCH = Some (u32 (arch d)).
Proof. reflexivity. Qed.

Lemma load_nr d : load_word d OFF_NR = Some (u32 (nr d)).
Proof. reflexivity. Qed.

Lemma load_arg1_lo d : load_word d OFF_ARG1_LO = Some (arg1_lo d).
Proof. reflexivity. Qed.

Lemma u32_in_range z : in_range 32 z = true -> u32 z = z.
Proof.
  unfold in_range, u32. rewrite andb_true_iff, Z.leb_le, Z.ltb_lt.
  intros [H0 H1]. now apply Z.mod_small.
Qed.

Lemma valid_data_nr d : valid_data d = true -> u32 (nr d) = nr d.
Proof.
  unfold valid_data. rewrite !andb_true_iff.
  intros [[[[H _] _] _] _]. now apply u32_in_range.
Qed.

Lemma valid_data_arch d : valid_data d = true -> u32 (arch d) = arch d.
Proof.
  unfold valid_data. rewrite !andb_true_iff.
  intros [[[[_ H] _] _] _]. now apply u32_in_range.
Qed.

(** The x32 test sees the bit of the syscall number itself. *)
Lemma land_u32_x32 z :
  Z.land (u32 z) X32_SYSCALL_BIT = Z.land z X32_SYSCALL_BIT.
Proof.
  unfold u32. rewrite <- Z.land_ones by lia.
  rewrite <- Z.land_assoc. reflexivity.
Qed.

(** ** One step of the machine *)

Section Stepping.

Variables (prog : list sock_filter) (d : seccomp_data).

Lemma exec_ld fuel acc pc x w :
  nth_error prog pc = Some x ->
  is_ld x = true ->
  load_word d (k x) = Some w ->
  bpf_exec (S fuel) prog d acc pc = bpf_exec fuel prog d w (S pc).
Proof. intros Hx Hld Hw. simpl. now rewrite Hx, Hld, Hw. Qed.

Lemma exec_jeq fuel acc pc x b :
  nth_error prog pc = Some x ->
  is_ld x = false ->
  is_jeq x = true ->
  (acc =? k x) = b ->
  bpf_exec (S fuel) prog d acc pc =
  bpf_exec fuel prog d acc (jump_target pc x b).
Proof. intros Hx Hld Hj <-. simpl. now rewrite Hx, Hld, Hj. Qed.

Lemma exec_jset fuel acc pc x b :
  nth_error prog pc = Some x ->
  is_ld x = false ->
  is_jeq x = false ->
  is_jset x = true ->
  (Z.land acc (k x) =? 0) = b ->
  bpf_exec (S fuel) prog d acc pc =
  bpf_exec fuel prog d acc (jump_target pc x (negb b)).
Proof. intros Hx Hld Hj Hs <-. simpl. now rewrite Hx, Hld, Hj, Hs. Qed.

Lemma exec_ret fuel acc pc x :
  nth_error prog pc = Some x ->
  is_ld x = false ->
  is_jeq x = false ->
  is_jset x = false ->
  is_ret x = true ->
  bpf_exec (S fuel) prog d acc pc = Returned (k x).
Proof. intros Hx Hld Hj Hs Hr. simpl. now rewrite Hx, Hld, Hj, Hs, Hr. Qed.

End Stepping.

(** Runs the machine on a listed program as far as the tests in the
    context decide the jumps. *)
Ltac bpf_side := first [eassumption | reflexivity].
Ltac bpf_step :=
  first
    [ erewrite exec_ret by bpf_side
    | erewrite exec_ld by
        first [apply load_arch | apply load_nr | apply load_arg1_lo
              | reflexivity]
    | erewrite exec_jeq by bpf_side
    | erewrite exec_jset by bpf_side ].

(** The emitted code decides as the policy says, on every context. *)
Lemma run_policy (t : target) (d : seccomp_data) :
  bpf_run (listing t) d =
  Returned (policy t (u32 (arch d)) (u32 (nr d)) (arg1_lo d)).
Proof.
  unfold policy, x32_rejected, bpf_run.
  destruct t; cbn [listing AUDIT_ARCH NR_IOCTL].
  - change (length x86_64_listing) with 13%nat.
    destruct (u32 (arch d) =? AUDIT_ARCH_X86_64) eqn:Ea;
    destruct (Z.land (u32 (nr d)) X32_SYSCALL_BIT =? 0) eqn:Ex;
    destruct (u32 (nr d) =? NR_IOCTL_X86_64) eqn:En;
    destruct (arg1_lo d =? TIOCSTI) eqn:E1;
    destruct (arg1_lo d =? TIOCLINUX) eqn:E2;
    repeat bpf_step; reflexivity.
  - change (length aarch64_listing) with 11%nat.
    destruct (u32 (arch d) =? AUDIT_ARCH_AARCH64) eqn:Ea;
    destruct (u32 (nr d) =? NR_IOCTL_AARCH64) eqn:En;
    destruct (arg1_lo d =? TIOCSTI) eqn:E1;
    destruct (arg1_lo d =? TIOCLINUX) eqn:E2;
    repeat bpf_step; reflexivity.
Qed.

(** ** Forward programs return *)

Lemma forall_indexed_nth {A} (p : nat -> A -> bool) l :
  forall i0 i x,
    forall_indexed p i0 l = true ->
    nth_error l i = Some x ->
    p (i0 + i)%nat x = true.
Proof.
  induction l as [|y l IH]; intros i0 i x Hall Hnth.
  - destruct i; discriminate.
  - simpl in Hall. apply andb_true_iff in Hall as [Hy Hl].
    destruct i as [|i]; simpl in Hnth.
    + injection Hnth as <-. now rewrite Nat.add_0_r.
    + rewrite <- Nat.add_succ_comm. now apply IH.
Qed.

Lemma forward_program_nth prog i x :
  forward_program prog = true ->
  nth_error prog i = Some x ->
  insn_forward (length prog) i x = true.
Proof. intros Hf Hx. exact (forall_indexed_nth _ _ 0%nat i x Hf Hx). Qed.

Lemma load_word_loadable d off :
  loadable off = true -> exists w, load_word d off = Some w.
Proof.
  intros Hl. unfold load_word. rewrite Hl. cbn [negb].
  repeat match goal with
         | |- context [if ?c then _ else _] => destruct c
         end; eexists; reflexivity.
Qed.

Lemma jump_target_forward pc x b : (pc < jump_target pc x b)%nat.
Proof. unfold jump_target. lia. Qed.

(** In a forward program a run started inside the sequence with a step
    of fuel for each remaining record ends at a return instruction. *)
Lemma forward_program_returns prog d :
  forward_program prog = true ->
  forall fuel pc acc,
    (pc < length prog)%nat ->
    (length prog - pc <= fuel)%nat ->
    exists j x,
      nth_error prog j = Some x /\ is_ret x = true /\
      bpf_exec fuel prog d acc pc = Returned (k x).
Proof.
  intros Hf. induction fuel as [|fuel IH]; intros pc acc Hpc Hfuel; [lia|].
  destruct (nth_error prog pc) as [x|] eqn:Hx;
    [|apply nth_error_None in Hx; lia].
  pose proof (forward_program_nth _ _ _ Hf Hx) as Hok.
  unfold insn_forward in Hok. cbn [bpf_exec]. rewrite Hx.
  destruct (is_ld x) eqn:Hld.
  - apply andb_true_iff in Hok as [Hload Hnext].
    apply Nat.ltb_lt in Hnext.
    destruct (load_word_loadable d _ Hload) as [w ->].
    apply IH; lia.
  - unfold is_jump in Hok.
    assert (Hgo : forall b,
               is_jeq x || is_jset x = true ->
               exists j y,
                 nth_error prog j = Some y /\ is_ret y = true /\
                 bpf_exec fuel prog d acc (jump_target pc x b)
                 = Returned (k y)).
    { intros b Hj. rewrite Hj in Hok.
      apply andb_true_iff in Hok as [Ht Hfl].
      apply Nat.ltb_lt in Ht, Hfl.
      pose proof (jump_target_forward pc x b).
      apply IH; destruct b; lia. }
    destruct (is_jeq x) eqn:Hjeq; [now apply Hgo|].
    destruct (is_jset x) eqn:Hjset; [now apply Hgo|].
    cbn [orb] in Hok. rewrite Hok. now exists pc, x.
Qed.

(** The fuel [bpf_run] gives is enough for any program, forward or not:
    a run never stops for lack of it. *)
Lemma bpf_exec_fuel_enough prog d :
  forall fuel pc acc,
    (0 < fuel)%nat ->
    (length prog < pc + fuel)%nat ->
    bpf_exec fuel prog d acc pc <> OutOfFuel.
Proof.
  induction fuel as [|fuel IH]; intros pc acc Hpos Hfuel; [lia|].
  cbn [bpf_exec].
  destruct (nth_error prog pc) as [x|] eqn:Hx; [|discriminate].
  assert (pc < length prog)%nat by (apply nth_error_Some; congruence).
  destruct (is_ld x).
  - destruct (load_word d (k x)); [apply IH; lia | discriminate].
  - destruct (is_jeq x);
      [apply IH; pose proof (jump_target_forward pc x (acc =? k x)); lia|].
    destruct (is_jset x);
      [apply IH;
       pose proof (jump_target_forward pc x
                     (negb (Z.land acc (k x) =? 0))); lia|].
    destruct (is_ret x); discriminate.
Qed.

Lemma bpf_run_fuel_enough prog d : bpf_run prog d <> OutOfFuel.
Proof. apply bpf_exec_fuel_enough; lia. Qed.

Lemma forward_listing t : forward_program (listing t) = true.
Proof. destruct t; vm_compute; reflexivity. Qed.

(** ** The policy on the evaluation contexts of the spec *)

Lemma deny_value : DENY = Z.lor SECCOMP_RET_ERRNO EPERM /\ DENY = 0x00050001.
Proof. split; reflexivity. Qed.

Lemma u32_audit_arch t : u32 (AUDIT_ARCH t) = AUDIT_ARCH t.
Proof. now destruct t. Qed.

Lemma u32_nr_ioctl t : u32 (NR_IOCTL t) = NR_IOCTL t.
Proof. now destruct t. Qed.

Lemma x32_rejected_ioctl t : x32_rejected t (NR_IOCTL t) = false.
Proof. now destruct t. Qed.

(** C1: on both architectures, a context with the expected architecture,
    the ioctl syscall number and a second argument whose low 32 bits are
    TIOCSTI or TIOCLINUX is denied, and the deny value is
    SECCOMP_RET_ERRNO | EPERM in every one of these cases. *)
Theorem C1_blocked_ioctl_denied (t : target) (h : heap) (d : seccomp_data) :
  arch d = AUDIT_ARCH t ->
  nr d = NR_IOCTL t ->
  arg1_lo d = TIOCSTI \/ arg1_lo d = TIOCLINUX ->
  simulate (generate_filter t) h d
  = Ok (Returned (Z.lor SECCOMP_RET_ERRNO EPERM)).
Proof.
  intros Ha Hn Hc.
  rewrite simulate_listing, run_policy, Ha, Hn.
  unfold policy.
  rewrite u32_audit_arch, u32_nr_ioctl, x32_rejected_ioctl, !Z.eqb_refl.
  cbn [negb].
  destruct Hc as [-> | ->]; reflexivity.
Qed.

Lemma C1_blocked_ioctl_denied_witness :
  let d := ctx 16 AUDIT_ARCH_X86_64 (TIOCLINUX + 2 ^ 32) in
  (arch d = AUDIT_ARCH x86_64 /\ nr d = NR_IOCTL x86_64 /\
   (arg1_lo d = TIOCSTI \/ arg1_lo d = TIOCLINUX)) /\
  simulate (generate_filter x86_64) [] d = Ok (Returned 0x00050001).
Proof.
  split.
  - repeat split. right. reflexivity.
  - apply (C1_blocked_ioctl_denied x86_64 []
             (ctx 16 AUDIT_ARCH_X86_64 (TIOCLINUX + 2 ^ 32)));
      [reflexivity | reflexivity | right; reflexivity].
Defined.

(** C2 as the spec words it fails on x86_64: a syscall number other than
    ioctl that carries the x32 bit is denied, not allowed. *)
Lemma C2_counterexample :
  ~ (forall (t : target) (h : heap) (d : seccomp_data),
        valid_data d = true ->
        arch d = AUDIT_ARCH t ->
        nr d <> NR_IOCTL t ->
        simulate (generate_filter t) h d = Ok (Returned ALLOW)).
Proof.
  intros H.
  specialize (H x86_64 [] (ctx (X32_SYSCALL_BIT + 1) AUDIT_ARCH_X86_64 0)).
  vm_compute in H.
  assert (E : Ok (Returned 327681) = Ok (Returned 2147418112))
    by (apply H; [reflexivity | reflexivity | discriminate]).
  discriminate E.
Qed.

(** C2, amended: with the expected architecture and a syscall number
    other than ioctl the filter allows, whatever the arguments, provided
    that on x86_64 the x32 bit of the syscall number is clear. *)
Theorem C2_other_syscall_allowed (t : target) (h : heap) (d : seccomp_data) :
  valid_data d = true ->
  arch d = AUDIT_ARCH t ->
  nr d <> NR_IOCTL t ->
  (t = x86_64 -> Z.land (nr d) X32_SYSCALL_BIT = 0) ->
  simulate (generate_filter t) h d = Ok (Returned ALLOW).
Proof.
  intros Hv Ha Hn Hx.
  rewrite simulate_listing, run_policy, (valid_data_nr d Hv), Ha.
  unfold policy.
  rewrite u32_audit_arch, Z.eqb_refl. cbn [negb].
  assert (Hrej : x32_rejected t (nr d) = false).
  { destruct t; [|reflexivity].
    cbn [x32_rejected]. now rewrite Hx. }
  rewrite Hrej.
  apply Z.eqb_neq in Hn. now rewrite Hn.
Qed.

Lemma C2_other_syscall_allowed_witness :
  let d := ctx 1 AUDIT_ARCH_X86_64 TIOCSTI in
  (valid_data d = true /\ arch d = AUDIT_ARCH x86_64 /\
   nr d <> NR_IOCTL x86_64 /\ Z.land (nr d) X32_SYSCALL_BIT = 0) /\
  simulate (generate_filter x86_64) [] d = Ok (Returned ALLOW).
Proof.
  split.
  - repeat split. discriminate.
  - apply (C2_other_syscall_allowed x86_64 []
             (ctx 1 AUDIT_ARCH_X86_64 TIOCSTI));
      [reflexivity | reflexivity | discriminate | reflexivity].
Defined.

(** C3: the x86_64 filter denies with EPERM, that is with the value
    SECCOMP_RET_ERRNO | EPERM = 0x00050001, every context of the
    expected architecture whose syscall number has the x32 bit set, for
    any arguments and whatever the number is without that bit. *)
Theorem C3_x32_denied (h : heap) (d : seccomp_data) :
  arch d = AUDIT_ARCH_X86_64 ->
  Z.land (nr d) X32_SYSCALL_BIT <> 0 ->
  simulate generate_x86_64_filter h d
  = Ok (Returned (Z.lor SECCOMP_RET_ERRNO EPERM)) /\
  Z.lor SECCOMP_RET_ERRNO EPERM = 0x00050001.
Proof.
  intros Ha Hx. split; [|reflexivity].
  revert Ha Hx.
  intros Ha Hx.
  change generate_x86_64_filter with (generate_filter x86_64).
  rewrite simulate_listing, run_policy, Ha.
  unfold policy. cbn [x32_rejected AUDIT_ARCH].
  rewrite land_u32_x32.
  apply Z.eqb_neq in Hx. rewrite Hx. reflexivity.
Qed.

Lemma C3_x32_denied_witness :
  let d := ctx (X32_SYSCALL_BIT + 16) AUDIT_ARCH_X86_64 7 in
  (arch d = AUDIT_ARCH_X86_64 /\ Z.land (nr d) X32_SYSCALL_BIT <> 0) /\
  simulate generate_x86_64_filter [] d = Ok (Returned 0x00050001).
Proof.
  split.
  - split; [reflexivity | discriminate].
  - apply (C3_x32_denied [] (ctx (X32_SYSCALL_BIT + 16) AUDIT_ARCH_X86_64 7));
      [reflexivity | discriminate].
Defined.

(** C4: on both architectures a context whose architecture field is not
    the expected constant kills the process, whatever its other fields. *)
Theorem C4_wrong_arch_killed (t : target) (h : heap) (d : seccomp_data) :
  valid_data d = true ->
  arch d <> AUDIT_ARCH t ->
  simulate (generate_filter t) h d = Ok (Returned SECCOMP_RET_KILL_PROCESS).
Proof.
  intros Hv Ha.
  rewrite simulate_listing, run_policy, (valid_data_arch d Hv).
  unfold policy.
  apply Z.eqb_neq in Ha. now rewrite Ha.
Qed.

Lemma C4_wrong_arch_killed_witness :
  let d := ctx 16 AUDIT_ARCH_X86_64 TIOCSTI in
  (valid_data d = true /\ arch d <> AUDIT_ARCH aarch64) /\
  simulate (generate_filter aarch64) [] d
  = Ok (Returned SECCOMP_RET_KILL_PROCESS).
Proof.
  split.
  - split; [reflexivity | discriminate].
  - apply (C4_wrong_arch_killed aarch64 []
             (ctx 16 AUDIT_ARCH_X86_64 TIOCSTI));
      [reflexivity | discriminate].
Defined.

(** C5: on both architectures a context with the expected architecture
    and the ioctl syscall number whose second argument has low 32 bits
    other than TIOCSTI and TIOCLINUX is allowed. *)
Theorem C5_other_ioctl_allowed (t : target) (h : heap) (d : seccomp_data) :
  arch d = AUDIT_ARCH t ->
  nr d = NR_IOCTL t ->
  arg1_lo d <> TIOCSTI ->
  arg1_lo d <> TIOCLINUX ->
  simulate (generate_filter t) h d = Ok (Returned SECCOMP_RET_ALLOW).
Proof.
  intros Ha Hn H1 H2.
  rewrite simulate_listing, run_policy, Ha, Hn.
  unfold policy.
  rewrite u32_audit_arch, u32_nr_ioctl, x32_rejected_ioctl, !Z.eqb_refl.
  apply Z.eqb_neq in H1, H2. now rewrite H1, H2.
Qed.

Lemma C5_other_ioctl_allowed_witness :
  let d := ctx 29 AUDIT_ARCH_AARCH64 0x5413 in
  (arch d = AUDIT_ARCH aarch64 /\ nr d = NR_IOCTL aarch64 /\
   arg1_lo d <> TIOCSTI /\ arg1_lo d <> TIOCLINUX) /\
  simulate (generate_filter aarch64) [] d = Ok (Returned SECCOMP_RET_ALLOW).
Proof.
  split.
  - repeat split; discriminate.
  - apply (C5_other_ioctl_allowed aarch64 []
             (ctx 29 AUDIT_ARCH_AARCH64 0x5413));
      [reflexivity | reflexivity | discriminate | discriminate].
Defined.

(** ** Shape of the emitted sequences *)

(** C6: in each emitted sequence every jump at index [i] has both
    targets [i + 1 + jt] and [i + 1 + jf] below the instruction count of
    the sequence (13 for x86_64, 11 for aarch64) and beyond [i]. *)
Theorem C6_jump_targets_in_bounds (t : target) (h : heap)
    (prog : list sock_filter) (i : nat) (x : sock_filter) :
  emitted_program (generate_filter t) h = Some prog ->
  nth_error prog i = Some x ->
  is_jump x = true ->
  length prog = insn_count t /\
  Z.of_nat i < Z.of_nat i + 1 + jt x < Z.of_nat (length prog) /\
  Z.of_nat i < Z.of_nat i + 1 + jf x < Z.of_nat (length prog).
Proof.
  rewrite emitted_listing. intros [= <-] Hx Hj.
  assert (Hall : forall_indexed (jump_in_bounds (length (listing t))) 0
                                (listing t) = true)
    by (destruct t; vm_compute; reflexivity).
  pose proof (forall_indexed_nth _ _ _ _ _ Hall Hx) as Hb.
  unfold jump_in_bounds in Hb. rewrite Hj in Hb. cbn [Nat.add] in Hb.
  rewrite !andb_true_iff, !Z.leb_le, !Z.ltb_lt in Hb.
  split; [now destruct t | lia].
Qed.

Lemma C6_jump_targets_in_bounds_witness :
  let x := mk_insn 0x15 2 0 0x5412 in
  (emitted_program (generate_filter x86_64) [] = Some x86_64_listing /\
   nth_error x86_64_listing 9 = Some x /\ is_jump x = true) /\
  length x86_64_listing = 13%nat /\
  9 < 9 + 1 + 2 < 13 /\ 9 < 9 + 1 + 0 < 13.
Proof.
  split.
  - repeat split.
  - apply (C6_jump_targets_in_bounds x86_64 [] x86_64_listing 9
             (mk_insn 0x15 2 0 0x5412)); reflexivity.
Defined.

(** C7: the emitted bytes are a whole number of 8-byte records: 13 of
    them for x86_64 and 11 for aarch64. *)
Theorem C7_instruction_count (t : target) (h : heap) :
  exists bs h' prog,
    generate_filter t h = Ok (bs, h') /\
    (length bs mod 8 = 0)%nat /\
    (length bs / 8 = insn_count t)%nat /\
    unpack_program bs = Some prog /\
    length prog = insn_count t /\
    insn_count x86_64 = 13%nat /\ insn_count aarch64 = 11%nat.
Proof.
  rewrite generate_filter_frame.
  destruct t; cbn [generate_filter].
  - destruct (generate_x86_64_filter []) as [[bs h0]|e] eqn:E;
      vm_compute in E; [|discriminate].
    injection E as <- <-.
    eexists _, _, x86_64_listing. repeat split.
  - destruct (generate_aarch64_filter []) as [[bs h0]|e] eqn:E;
      vm_compute in E; [|discriminate].
    injection E as <- <-.
    eexists _, _, aarch64_listing. repeat split.
Qed.

(** ** The record layout *)

Lemma Z_of_byte_of_Z z : Z_of_byte (byte_of_Z z) = z mod 256.
Proof.
  unfold Z_of_byte, byte_of_Z.
  assert (Hm : 0 <= z mod 256 < 256) by (apply Z.mod_pos_bound; lia).
  destruct (Byte.of_N (Z.to_N (z mod 256))) as [b|] eqn:E.
  - apply Byte.to_of_N in E. rewrite E. apply Z2N.id; lia.
  - apply Byte.of_N_None_iff in E. lia.
Qed.

Lemma byte_of_Z_0 : byte_of_Z 0 = x00.
Proof. reflexivity. Qed.

Lemma pack_field_ok w v :
  0 <= v < 256 ^ Z.of_nat w -> pack_field w v = Ok (le_bytes w v).
Proof.
  intros [H0 H1]. unfold pack_field.
  apply Z.leb_le in H0. apply Z.ltb_lt in H1. now rewrite H0, H1.
Qed.

Lemma pack_field_range w v bs :
  pack_field w v = Ok bs -> 0 <= v < 256 ^ Z.of_nat w.
Proof.
  unfold pack_field.
  destruct (Z.leb_spec 0 v), (Z.ltb_spec v (256 ^ Z.of_nat w));
    cbn [andb]; intros E; try discriminate E; lia.
Qed.

Lemma pack_HBBI_layout c t f kk :
  0 <= c < 2 ^ 16 -> 0 <= t < 2 ^ 8 -> 0 <= f < 2 ^ 8 -> 0 <= kk < 2 ^ 32 ->
  pack_HBBI c t f kk =
  Ok [byte_of_Z c; byte_of_Z (c / 256);
      byte_of_Z t; byte_of_Z f;
      byte_of_Z kk; byte_of_Z (kk / 256); byte_of_Z (kk / 256 / 256);
      byte_of_Z (kk / 256 / 256 / 256)].
Proof.
  intros Hc Ht Hf Hk. unfold pack_HBBI.
  rewrite (pack_field_ok 2 c), (pack_field_ok 1 t), (pack_field_ok 1 f),
    (pack_field_ok 4 kk); [reflexivity | | | |]; assumption.
Qed.

(** C8: an encoded record is 8 bytes: the operation in two bytes, the
    true and the false offset in one byte each, the operand in four
    bytes, low byte first; a statement has both offset bytes zero. *)
Theorem C8_record_layout (c kk t f : Z) :
  0 <= c < 2 ^ 16 -> 0 <= t < 2 ^ 8 -> 0 <= f < 2 ^ 8 -> 0 <= kk < 2 ^ 32 ->
  (exists b0 b1 b2 b3 b4 b5 b6 b7,
      bpf_jump c kk t f = Ok [b0; b1; b2; b3; b4; b5; b6; b7] /\
      Z_of_byte b0 + 2 ^ 8 * Z_of_byte b1 = c /\
      Z_of_byte b2 = t /\
      Z_of_byte b3 = f /\
      Z_of_byte b4 + 2 ^ 8 * Z_of_byte b5 + 2 ^ 16 * Z_of_byte b6
      + 2 ^ 24 * Z_of_byte b7 = kk) /\
  (exists b0 b1 b4 b5 b6 b7,
      bpf_stmt c kk = Ok [b0; b1; x00; x00; b4; b5; b6; b7] /\
      Z_of_byte b0 + 2 ^ 8 * Z_of_byte b1 = c /\
      Z_of_byte b4 + 2 ^ 8 * Z_of_byte b5 + 2 ^ 16 * Z_of_byte b6
      + 2 ^ 24 * Z_of_byte b7 = kk).
Proof.
  intros Hc Ht Hf Hk.
  assert (Hcode : c mod 256 + 2 ^ 8 * ((c / 256) mod 256) = c).
  { change (2 ^ 16) with 65536 in Hc. change (2 ^ 8) with 256.
    Z.div_mod_to_equations. lia. }
  assert (Hoper : kk mod 256 + 2 ^ 8 * ((kk / 256) mod 256)
                  + 2 ^ 16 * ((kk / 256 / 256) mod 256)
                  + 2 ^ 24 * ((kk / 256 / 256 / 256) mod 256) = kk).
  { change (2 ^ 32) with 4294967296 in Hk.
    change (2 ^ 8) with 256. change (2 ^ 16) with 65536.
    change (2 ^ 24) with 16777216.
    Z.div_mod_to_equations. lia. }
  split.
  - unfold bpf_jump. rewrite pack_HBBI_layout by assumption.
    do 8 eexists. split; [reflexivity|].
    rewrite !Z_of_byte_of_Z.
    change (2 ^ 8) with 256 in Ht, Hf.
    rewrite (Z.mod_small t), (Z.mod_small f) by assumption.
    auto.
  - unfold bpf_stmt.
    rewrite pack_HBBI_layout by (try assumption; split; reflexivity || discriminate).
    rewrite byte_of_Z_0.
    do 6 eexists. split; [reflexivity|].
    rewrite !Z_of_byte_of_Z. auto.
Qed.

Lemma C8_record_layout_witness :
  (0 <= 0x15 < 2 ^ 16 /\ 0 <= 2 < 2 ^ 8 /\ 0 <= 0 < 2 ^ 8 /\
   0 <= TIOCSTI < 2 ^ 32) /\
  (exists b0 b1 b2 b3 b4 b5 b6 b7,
      bpf_jump 0x15 TIOCSTI 2 0 = Ok [b0; b1; b2; b3; b4; b5; b6; b7] /\
      Z_of_byte b2 = 2 /\ Z_of_byte b3 = 0) /\
  (exists b0 b1 b4 b5 b6 b7,
      bpf_stmt 0x15 TIOCSTI = Ok [b0; b1; x00; x00; b4; b5; b6; b7]).
Proof.
  split; [repeat split; discriminate|].
  destruct (C8_record_layout 0x15 TIOCSTI 2 0)
    as [(b0 & b1 & b2 & b3 & b4 & b5 & b6 & b7 & Ej & _ & H2 & H3 & _)
        (c0 & c1 & c4 & c5 & c6 & c7 & Es & _)];
    [split; reflexivity || discriminate ..|].
  split.
  - exists b0, b1, b2, b3, b4, b5, b6, b7. auto.
  - exists c0, c1, c4, c5, c6, c7. exact Es.
Defined.

(** ** Determinism *)

Lemma generate_filter_total t :
  exists bs h0, generate_filter t [] = Ok (bs, h0).
Proof. destruct t; vm_compute; eauto. Qed.

(** C9: a generator emits the same bytes at every invocation: in any
    two stores, and also when it is invoked again in the store its
    first invocation left. *)
Theorem C9_deterministic (t : target) (h1 h2 : heap) :
  exists bs h1' h2' h1'',
    generate_filter t h1 = Ok (bs, h1') /\
    generate_filter t h2 = Ok (bs, h2') /\
    generate_filter t h1' = Ok (bs, h1'').
Proof.
  destruct (generate_filter_total t) as (bs & h0 & E).
  exists bs, (h1 ++ h0), (h2 ++ h0), ((h1 ++ h0) ++ h0).
  rewrite (generate_filter_frame t h1), (generate_filter_frame t h2),
    (generate_filter_frame t (h1 ++ h0)), E.
  repeat split.
Qed.

(** ** Termination *)

Lemma insn_forward_successors n i x :
  insn_forward n i x = true ->
  is_ret x = false ->
  successors i x <> [] /\
  forall j, In j (successors i x) -> (i < j < n)%nat.
Proof.
  unfold insn_forward, successors. intros Hok Hret.
  destruct (is_ld x).
  - apply andb_true_iff in Hok as [_ Hn]. apply Nat.ltb_lt in Hn.
    split; [discriminate|]. intros j [<-|[]]. lia.
  - destruct (is_jump x); [|congruence].
    apply andb_true_iff in Hok as [Ht Hf]. apply Nat.ltb_lt in Ht, Hf.
    split; [discriminate|].
    intros j [<-|[<-|[]]];
      (split; [apply jump_target_forward | assumption]).
Qed.

Lemma listing_returns_terminal t j x :
  nth_error (listing t) j = Some x ->
  is_ret x = true ->
  k x = KILL \/ k x = ALLOW \/ k x = DENY.
Proof.
  intros Hx Hr.
  assert (Hall : forallb (fun y => implb (is_ret y) (is_terminal (k y)))
                         (listing t) = true)
    by (destruct t; vm_compute; reflexivity).
  rewrite forallb_forall in Hall.
  specialize (Hall x (nth_error_In _ _ Hx)).
  rewrite Hr in Hall. cbn [implb] in Hall. unfold is_terminal in Hall.
  rewrite !orb_true_iff, !Z.eqb_eq in Hall. tauto.
Qed.

(** C10: in each emitted sequence the last instruction is a return and
    every other instruction passes control only to later indices of the
    sequence, so on every context the evaluation ends at a return with
    one of the three terminal actions. *)
Theorem C10_every_run_returns (t : target) (h : heap) :
  exists prog,
    emitted_program (generate_filter t) h = Some prog /\
    (exists x, nth_error prog (length prog - 1) = Some x /\
               is_ret x = true) /\
    (forall i x,
        nth_error prog i = Some x ->
        is_ret x = false ->
        successors i x <> [] /\
        forall j, In j (successors i x) -> (i < j < length prog)%nat) /\
    (forall d, exists v,
        simulate (generate_filter t) h d = Ok (Returned v) /\
        (v = KILL \/ v = ALLOW \/ v = DENY)).
Proof.
  exists (listing t). split; [apply emitted_listing|]. split; [|split].
  - destruct t; eexists; split; reflexivity.
  - intros i x Hx Hret.
    apply insn_forward_successors; [|exact Hret].
    apply forward_program_nth; [apply forward_listing | exact Hx].
  - intros d. rewrite simulate_listing. unfold bpf_run.
    destruct (forward_program_returns (listing t) d (forward_listing t)
                (S (length (listing t))) 0%nat 0)
      as (j & x & Hx & Hr & E); [destruct t; cbn; lia | lia |].
    rewrite E. exists (k x). split; [reflexivity|].
    exact (listing_returns_terminal t j x Hx Hr).
Qed.

Lemma C10_every_run_returns_witness :
  exists prog,
    emitted_program (generate_filter x86_64) [] = Some prog /\
    (nth_error prog 4 = Some (mk_insn 0x45 0 1 0x40000000) /\
     is_ret (mk_insn 0x45 0 1 0x40000000) = false) /\
    (4 < 5 < length prog)%nat /\ (4 < 6 < length prog)%nat.
Proof.
  destruct (C10_every_run_returns x86_64 []) as (prog & Hp & _ & Hs & _).
  exists prog. split; [exact Hp|].
  rewrite emitted_listing in Hp. injection Hp as <-.
  split; [split; reflexivity|].
  destruct (Hs 4%nat (mk_insn 0x45 0 1 0x40000000)) as [_ Hin];
    [reflexivity | reflexivity |].
  split; apply Hin; cbn; auto.
Defined.

(** * Further properties of the script *)

(** ** [RET_ERRNO] *)

Lemma land_ret_data e : Z.land e SECCOMP_RET_DATA = e mod 2 ^ 16.
Proof. change SECCOMP_RET_DATA with (Z.ones 16). apply Z.land_ones. lia. Qed.

Lemma land_errno_data m :
  0 <= m < 2 ^ 16 -> Z.land SECCOMP_RET_ERRNO m = 0.
Proof.
  intros Hm. apply Z.bits_inj'. intros n Hn.
  rewrite Z.land_spec, Z.bits_0.
  destruct (Z.lt_ge_cases n 16) as [Hlo | Hhi].
  - change SECCOMP_RET_ERRNO with (Z.shiftl 5 16).
    now rewrite Z.shiftl_spec_low.
  - rewrite <- (Z.mod_small m (2 ^ 16)) by assumption.
    rewrite Z.mod_pow2_bits_high by lia. apply andb_false_r.
Qed.

Lemma ret_errno_sum e : RET_ERRNO e = SECCOMP_RET_ERRNO + e mod 2 ^ 16.
Proof.
  unfold RET_ERRNO. rewrite land_ret_data.
  assert (Hm : 0 <= e mod 2 ^ 16 < 2 ^ 16) by (apply Z.mod_pos_bound; lia).
  pose proof (land_errno_data _ Hm) as Hd.
  rewrite <- Z.lxor_lor by exact Hd.
  symmetry. now apply Z.add_nocarry_lxor.
Qed.

(** X1: for every integer [e], negative or large, [RET_ERRNO(e)] is the
    errno action plus [e] reduced modulo 2^16: its data bits are
    [e mod 2^16] and it lies between 0x50000 and 0x5FFFF. *)
Theorem X1_ret_errno_value (e : Z) :
  RET_ERRNO e = SECCOMP_RET_ERRNO + e mod 2 ^ 16 /\
  Z.land (RET_ERRNO e) SECCOMP_RET_DATA = e mod 2 ^ 16 /\
  0x00050000 <= RET_ERRNO e <= 0x0005FFFF.
Proof.
  assert (Hm : 0 <= e mod 2 ^ 16 < 2 ^ 16) by (apply Z.mod_pos_bound; lia).
  rewrite land_ret_data, ret_errno_sum.
  split; [reflexivity|]. split.
  - change SECCOMP_RET_ERRNO with (5 * 2 ^ 16).
    rewrite Z.add_comm, Z.mod_add by lia. now apply Z.mod_small.
  - change SECCOMP_RET_ERRNO with 327680.
    change (2 ^ 16) with 65536 in *. lia.
Qed.

(** ** The encoder, read back *)

Lemma Z_of_byte_range b : 0 <= Z_of_byte b < 256.
Proof.
  unfold Z_of_byte. pose proof (Byte.to_N_bounded b). lia.
Qed.

Lemma byte_of_Z_of_byte b : byte_of_Z (Z_of_byte b) = b.
Proof.
  unfold byte_of_Z. rewrite Z.mod_small by apply Z_of_byte_range.
  unfold Z_of_byte. now rewrite N2Z.id, Byte.of_to_N.
Qed.

Lemma byte_of_Z_mod z : byte_of_Z (z mod 256) = byte_of_Z z.
Proof. unfold byte_of_Z. now rewrite Z.mod_mod by lia. Qed.

Lemma le_value_range bs : 0 <= le_value bs < 256 ^ Z.of_nat (length bs).
Proof.
  induction bs as [|b bs IH]; [cbn; lia|].
  cbn [le_value length]. rewrite Nat2Z.inj_succ, Z.pow_succ_r by lia.
  pose proof (Z_of_byte_range b). lia.
Qed.

Lemma le_value_le_bytes w :
  forall v, 0 <= v < 256 ^ Z.of_nat w -> le_value (le_bytes w v) = v.
Proof.
  induction w as [|w IH]; intros v Hv.
  - cbn in *. lia.
  - cbn [le_bytes le_value]. rewrite Z_of_byte_of_Z.
    rewrite Nat2Z.inj_succ, Z.pow_succ_r in Hv by lia.
    rewrite IH.
    + pose proof (Z.div_mod v 256). lia.
    + split; [apply Z.div_pos; lia | apply Z.div_lt_upper_bound; lia].
Qed.

Lemma le_bytes_le_value bs : le_bytes (length bs) (le_value bs) = bs.
Proof.
  induction bs as [|b bs IH]; [reflexivity|].
  cbn [length le_bytes le_value].
  pose proof (Z_of_byte_range b) as Hb.
  assert (Hlow : byte_of_Z (Z_of_byte b + 256 * le_value bs) = b).
  { rewrite <- byte_of_Z_mod, (Z.mul_comm 256), Z.mod_add by lia.
    rewrite byte_of_Z_mod. apply byte_of_Z_of_byte. }
  assert (Hhigh : (Z_of_byte b + 256 * le_value bs) / 256 = le_value bs).
  { rewrite (Z.mul_comm 256), Z.div_add by lia.
    rewrite Z.div_small by assumption. lia. }
  now rewrite Hlow, Hhigh, IH.
Qed.

Lemma pack_HBBI_fits c t f kk :
  fits c t f kk ->
  pack_HBBI c t f kk
  = Ok (le_bytes 2 c ++ le_bytes 1 t ++ le_bytes 1 f ++ le_bytes 4 kk).
Proof.
  intros (Hc & Ht & Hf & Hk). unfold pack_HBBI.
  now rewrite (pack_field_ok 2 c), (pack_field_ok 1 t), (pack_field_ok 1 f),
    (pack_field_ok 4 kk).
Qed.

Lemma pack_field_struct_error w v :
  ~ 0 <= v < 256 ^ Z.of_nat w -> pack_field w v = Raise struct_error.
Proof.
  intros Hv. unfold pack_field.
  destruct (Z.leb_spec 0 v), (Z.ltb_spec v (256 ^ Z.of_nat w));
    cbn [andb]; try reflexivity; lia.
Qed.

Lemma pack_HBBI_ok c t f kk bs :
  pack_HBBI c t f kk = Ok bs -> fits c t f kk.
Proof.
  unfold pack_HBBI, fits.
  destruct (pack_field 2 c) eqn:Ec; [|discriminate].
  destruct (pack_field 1 t) eqn:Et; [|discriminate].
  destruct (pack_field 1 f) eqn:Ef; [|discriminate].
  destruct (pack_field 4 kk) eqn:Ek; [|discriminate].
  intros _.
  apply pack_field_range in Ec, Et, Ef, Ek. auto.
Qed.

Lemma pack_HBBI_raises c t f kk :
  ~ fits c t f kk -> pack_HBBI c t f kk = Raise struct_error.
Proof.
  intros Hn. unfold pack_HBBI.
  destruct (pack_field 2 c) as [b0|e0] eqn:Ec.
  2:{ unfold pack_field in Ec.
      destruct ((0 <=? c) && (c <? 256 ^ Z.of_nat 2)); congruence. }
  destruct (pack_field 1 t) as [b1|e1] eqn:Et.
  2:{ unfold pack_field in Et.
      destruct ((0 <=? t) && (t <? 256 ^ Z.of_nat 1)); congruence. }
  destruct (pack_field 1 f) as [b2|e2] eqn:Ef.
  2:{ unfold pack_field in Ef.
      destruct ((0 <=? f) && (f <? 256 ^ Z.of_nat 1)); congruence. }
  destruct (pack_field 4 kk) as [b3|e3] eqn:Ek.
  2:{ unfold pack_field in Ek.
      destruct ((0 <=? kk) && (kk <? 256 ^ Z.of_nat 4)); congruence. }
  exfalso. apply Hn.
  apply pack_field_range in Ec, Et, Ef, Ek. unfold fits. auto.
Qed.

Lemma unpack_encoded c t f kk rest :
  fits c t f kk ->
  unpack_program
    ((le_bytes 2 c ++ le_bytes 1 t ++ le_bytes 1 f ++ le_bytes 4 kk) ++ rest)
  = match unpack_program rest with
    | Some p => Some (mk_insn c t f kk :: p)
    | None => None
    end.
Proof.
  intros (Hc & Ht & Hf & Hk).
  pose proof (le_value_le_bytes 2 c Hc) as Ec.
  pose proof (le_value_le_bytes 1 t Ht) as Et.
  pose proof (le_value_le_bytes 1 f Hf) as Ef.
  pose proof (le_value_le_bytes 4 kk Hk) as Ek.
  cbn [le_bytes app unpack_program] in *.
  cbn [le_value] in Et, Ef.
  rewrite Z.mul_0_r, Z.add_0_r in Et, Ef.
  now rewrite Ec, Et, Ef, Ek.
Qed.

Lemma encode_insn_ok x bs :
  encode_insn x = Ok bs ->
  fits (code x) (jt x) (jf x) (k x) /\
  bs = le_bytes 2 (code x) ++ le_bytes 1 (jt x) ++ le_bytes 1 (jf x)
       ++ le_bytes 4 (k x).
Proof.
  unfold encode_insn, bpf_jump. intros E.
  pose proof (pack_HBBI_ok _ _ _ _ _ E) as Hfit.
  rewrite (pack_HBBI_fits _ _ _ _ Hfit) in E.
  injection E as <-. auto.
Qed.

(** X2: the encoder raises [struct.error] exactly when an argument does
    not fit its field (16 bits for the operation, 8 for each offset, 32
    for the operand); a statement, exactly when its operation or its
    operand does not fit. *)
Theorem X2_encoder_raises_iff (c kk t f : Z) :
  (bpf_jump c kk t f = Raise struct_error <-> ~ fits c t f kk) /\
  (bpf_stmt c kk = Raise struct_error <->
   ~ (0 <= c < 2 ^ 16 /\ 0 <= kk < 2 ^ 32)).
Proof.
  unfold bpf_jump, bpf_stmt. split; split.
  - intros E Hfit. rewrite (pack_HBBI_fits _ _ _ _ Hfit) in E. discriminate.
  - apply pack_HBBI_raises.
  - intros E [Hc Hk].
    rewrite pack_HBBI_fits in E; [discriminate|].
    unfold fits. repeat split; (assumption || lia || reflexivity).
  - intros Hn. apply pack_HBBI_raises. unfold fits. tauto.
Qed.

(** X3: two encoder calls that return the same bytes were given the
    same operation, operand and offsets. *)
Theorem X3_encoder_injective (c kk t f c' kk' t' f' : Z) (bs : bytes) :
  bpf_jump c kk t f = Ok bs ->
  bpf_jump c' kk' t' f' = Ok bs ->
  c = c' /\ kk = kk' /\ t = t' /\ f = f'.
Proof.
  intros E E'.
  destruct (encode_insn_ok (mk_insn c t f kk) bs E) as [Hfit Hbs].
  destruct (encode_insn_ok (mk_insn c' t' f' kk') bs E') as [Hfit' Hbs'].
  cbn [code jt jf k] in *.
  pose proof (unpack_encoded _ _ _ _ [] Hfit) as D.
  pose proof (unpack_encoded _ _ _ _ [] Hfit') as D'.
  rewrite <- Hbs in D. rewrite <- Hbs' in D'.
  rewrite D in D'. cbn in D'. injection D' as -> -> -> ->. auto.
Qed.

Lemma X3_encoder_injective_witness :
  (bpf_jump 0x15 TIOCSTI 2 0 = Ok [x15; x00; x02; x00; x12; x54; x00; x00] /\
   bpf_jump (0x05 + 0x10) 0x5412 (1 + 1) 0
   = Ok [x15; x00; x02; x00; x12; x54; x00; x00]) /\
  0x15 = 0x05 + 0x10 /\ TIOCSTI = 0x5412 /\ 2 = 1 + 1 /\ 0 = 0.
Proof.
  split; [split; reflexivity|].
  apply (X3_encoder_injective 0x15 TIOCSTI 2 0 (0x05 + 0x10) 0x5412 (1 + 1) 0
           [x15; x00; x02; x00; x12; x54; x00; x00]); reflexivity.
Defined.

(** X4: reading back the concatenation of any encoded records returns
    those records, in order: [unpack_program] inverts the encoder. *)
Theorem X4_encode_then_unpack (prog : list sock_filter) (bss : list bytes) :
  Forall2 (fun x bs => encode_insn x = Ok bs) prog bss ->
  unpack_program (concat bss) = Some prog.
Proof.
  induction 1 as [|x bs prog bss E _ IH]; [reflexivity|].
  destruct (encode_insn_ok x bs E) as [Hfit ->].
  cbn [concat]. rewrite (unpack_encoded _ _ _ _ (concat bss) Hfit), IH.
  now destruct x.
Qed.

Lemma X4_encode_then_unpack_witness :
  let prog := [mk_insn 0x20 0 0 4; mk_insn 0x15 1 0 0xC000003E] in
  let bss := [[x20; x00; x00; x00; x04; x00; x00; x00];
              [x15; x00; x01; x00; x3e; x00; x00; xc0]] in
  Forall2 (fun x bs => encode_insn x = Ok bs) prog bss /\
  unpack_program (concat bss) = Some prog.
Proof.
  assert (H : Forall2 (fun x bs => encode_insn x = Ok bs)
                [mk_insn 0x20 0 0 4; mk_insn 0x15 1 0 0xC000003E]
                [[x20; x00; x00; x00; x04; x00; x00; x00];
                 [x15; x00; x01; x00; x3e; x00; x00; xc0]])
    by (repeat constructor).
  split; [exact H | exact (X4_encode_then_unpack _ _ H)].
Defined.

Lemma unpack_program_record b0 b1 b2 b3 b4 b5 b6 b7 rest :
  unpack_program (b0 :: b1 :: b2 :: b3 :: b4 :: b5 :: b6 :: b7 :: rest)
  = match unpack_program rest with
    | Some p =>
      Some (mk_insn (le_value [b0; b1]) (Z_of_byte b2) (Z_of_byte b3)
                    (le_value [b4; b5; b6; b7]) :: p)
    | None => None
    end.
Proof. reflexivity. Qed.

Lemma unpack_then_encode_bounded n :
  forall bs prog,
    (length bs <= n)%nat ->
    unpack_program bs = Some prog ->
    exists bss,
      Forall2 (fun x b => encode_insn x = Ok b) prog bss /\
      concat bss = bs.
Proof.
  induction n as [|n IH]; intros bs prog Hlen Hun.
  - destruct bs; [|cbn in Hlen; lia].
    cbn in Hun. injection Hun as <-. exists []. split; constructor.
  - destruct bs as [|b0 [|b1 [|b2 [|b3 [|b4 [|b5 [|b6 [|b7 rest]]]]]]]];
      try discriminate Hun.
    + cbn in Hun. injection Hun as <-. exists []. split; constructor.
    + rewrite unpack_program_record in Hun.
      destruct (unpack_program rest) as [p|] eqn:Hrest; [|discriminate].
      assert (Hp : prog = mk_insn (le_value [b0; b1]) (Z_of_byte b2)
                                  (Z_of_byte b3)
                                  (le_value [b4; b5; b6; b7]) :: p)
        by congruence.
      subst prog. clear Hun.
      destruct (IH rest p) as (bss & Hall & Hcat);
        [cbn in Hlen; lia | exact Hrest |].
      exists ([b0; b1; b2; b3; b4; b5; b6; b7] :: bss). split.
      * constructor; [|exact Hall].
        unfold encode_insn, bpf_jump. cbn [code jt jf k].
        rewrite pack_HBBI_fits.
        -- pose proof (le_bytes_le_value [b0; b1]) as E2.
           pose proof (le_bytes_le_value [b4; b5; b6; b7]) as E4.
           cbn [length] in E2, E4. rewrite E2, E4.
           cbn [le_bytes app].
           now rewrite !byte_of_Z_of_byte.
        -- unfold fits.
           pose proof (le_value_range [b0; b1]).
           pose proof (le_value_range [b4; b5; b6; b7]).
           pose proof (Z_of_byte_range b2).
           pose proof (Z_of_byte_range b3).
           cbn [length] in *.
           change (256 ^ Z.of_nat 2) with (2 ^ 16) in *.
           change (256 ^ Z.of_nat 4) with (2 ^ 32) in *.
           change (2 ^ 8) with 256. auto.
      * cbn [concat app]. now rewrite Hcat.
Qed.

(** X5: whatever bytes [unpack_program] accepts, encoding the records
    it returns gives those bytes back: no two byte strings read as the
    same program, and no encoder call fails on a record read back. *)
Theorem X5_unpack_then_encode (bs : bytes) (prog : list sock_filter) :
  unpack_program bs = Some prog ->
  exists bss,
    Forall2 (fun x b => encode_insn x = Ok b) prog bss /\
    concat bss = bs.
Proof. apply (unpack_then_encode_bounded (length bs)). lia. Qed.

Lemma X5_unpack_then_encode_witness :
  let bs := [x45; x00; x00; x01; x00; x00; x00; x40] in
  unpack_program bs = Some [mk_insn 0x45 0 1 0x40000000] /\
  exists bss,
    Forall2 (fun x b => encode_insn x = Ok b)
            [mk_insn 0x45 0 1 0x40000000] bss /\
    concat bss = bs.
Proof.
  split; [reflexivity|].
  apply (X5_unpack_then_encode [x45; x00; x00; x01; x00; x00; x00; x40]).
  reflexivity.
Defined.

(** X6: a return of [RET_ERRNO(e)] can be encoded for every integer [e]
    and reads back as a return whose value is the errno action with [e]
    modulo 2^16; that value is never the allow or the kill action. *)
Theorem X6_ret_errno_encodable (e : Z) :
  (exists bs,
      bpf_stmt (Z.lor BPF_RET BPF_K) (RET_ERRNO e) = Ok bs /\
      unpack_program bs
      = Some [mk_insn 0x06 0 0 (SECCOMP_RET_ERRNO + e mod 2 ^ 16)]) /\
  RET_ERRNO e <> SECCOMP_RET_ALLOW /\
  RET_ERRNO e <> SECCOMP_RET_KILL_PROCESS.
Proof.
  rewrite ret_errno_sum.
  assert (Hm : 0 <= e mod 2 ^ 16 < 2 ^ 16) by (apply Z.mod_pos_bound; lia).
  change (2 ^ 16) with 65536 in *.
  change SECCOMP_RET_ERRNO with 327680.
  change SECCOMP_RET_ALLOW with 2147418112.
  change SECCOMP_RET_KILL_PROCESS with 2147483648.
  split; [|lia].
  assert (Hfit : fits (Z.lor BPF_RET BPF_K) 0 0 (327680 + e mod 65536)).
  { unfold fits. change (2 ^ 32) with 4294967296.
    repeat split; (reflexivity || discriminate || lia). }
  unfold bpf_stmt. rewrite (pack_HBBI_fits _ _ _ _ Hfit).
  eexists. split; [reflexivity|].
  rewrite <- (app_nil_r (_ ++ _ ++ _ ++ _)).
  now rewrite (unpack_encoded _ _ _ _ [] Hfit).
Qed.

(** ** The verdict of the emitted filters *)

(** X7: the verdict depends on three words only: the architecture, the
    syscall number and the low 32 bits of the second argument. Contexts
    that agree on them get the same verdict, whatever the instruction
    pointer, the other arguments and the high bits of the second. *)
Theorem X7_verdict_reads_three_words (t : target) (h h' : heap)
    (d d' : seccomp_data) :
  u32 (arch d) = u32 (arch d') ->
  u32 (nr d) = u32 (nr d') ->
  arg1_lo d = arg1_lo d' ->
  simulate (generate_filter t) h d = simulate (generate_filter t) h' d'.
Proof.
  intros Ha Hn Hc. rewrite !simulate_listing, !run_policy.
  now rewrite Ha, Hn, Hc.
Qed.

Lemma X7_verdict_reads_three_words_witness :
  let d := ctx 16 AUDIT_ARCH_X86_64 TIOCSTI in
  let d' := mk_data 16 AUDIT_ARCH_X86_64 0xDEADBEEF
                    [1; TIOCSTI + 7 * 2 ^ 32; 2; 3; 4; 5] in
  (u32 (arch d) = u32 (arch d') /\ u32 (nr d) = u32 (nr d') /\
   arg1_lo d = arg1_lo d') /\
  simulate (generate_filter x86_64) [] d
  = simulate (generate_filter x86_64) [[]] d'.
Proof.
  split; [repeat split|].
  apply (X7_verdict_reads_three_words x86_64 [] [[]]
           (ctx 16 AUDIT_ARCH_X86_64 TIOCSTI)
           (mk_data 16 AUDIT_ARCH_X86_64 0xDEADBEEF
                    [1; TIOCSTI + 7 * 2 ^ 32; 2; 3; 4; 5])); reflexivity.
Defined.

Lemma x32_rejected_iff t n :
  x32_rejected t (u32 n) = true <->
  t = x86_64 /\ Z.land n X32_SYSCALL_BIT <> 0.
Proof.
  destruct t; cbn [x32_rejected].
  - rewrite land_u32_x32, negb_true_iff, Z.eqb_neq. tauto.
  - split; [discriminate | intros [E _]; discriminate E].
Qed.

(** X8: a filter kills the process exactly when the architecture word
    of the context is not the expected constant. *)
Theorem X8_kill_iff_wrong_arch (t : target) (h : heap) (d : seccomp_data) :
  simulate (generate_filter t) h d = Ok (Returned SECCOMP_RET_KILL_PROCESS)
  <-> u32 (arch d) <> AUDIT_ARCH t.
Proof.
  rewrite simulate_listing, run_policy. unfold policy.
  destruct (Z.eqb_spec (u32 (arch d)) (AUDIT_ARCH t)) as [Ea|Ea];
    cbn [negb]; [|tauto].
  split; [|tauto]. intros H. exfalso.
  repeat match type of H with
         | context [if ?c then _ else _] => destruct c
         end; discriminate H.
Qed.

(** X9: a filter denies with EPERM exactly when the architecture is the
    expected one and either (on x86_64) the syscall number has the x32
    bit set, or the syscall is ioctl with TIOCSTI or TIOCLINUX in the
    low 32 bits of its second argument; it denies nothing else. *)
Theorem X9_deny_iff (t : target) (h : heap) (d : seccomp_data) :
  simulate (generate_filter t) h d = Ok (Returned (RET_ERRNO EPERM))
  <->
  u32 (arch d) = AUDIT_ARCH t /\
  ((t = x86_64 /\ Z.land (nr d) X32_SYSCALL_BIT <> 0) \/
   (u32 (nr d) = NR_IOCTL t /\
    (arg1_lo d = TIOCSTI \/ arg1_lo d = TIOCLINUX))).
Proof.
  rewrite simulate_listing, run_policy, <- x32_rejected_iff.
  unfold policy.
  destruct (Z.eqb_spec (u32 (arch d)) (AUDIT_ARCH t)) as [Ea|Ea];
    cbn [negb]; [|split; [discriminate | tauto]].
  destruct (x32_rejected t (u32 (nr d))); [tauto|].
  destruct (Z.eqb_spec (u32 (nr d)) (NR_IOCTL t)) as [En|En]; cbn [negb].
  - destruct (Z.eqb_spec (arg1_lo d) TIOCSTI) as [E1|E1];
      [cbn [orb]; tauto|].
    destruct (Z.eqb_spec (arg1_lo d) TIOCLINUX) as [E2|E2];
      [cbn [orb]; tauto|].
    cbn [orb]. split; [discriminate|].
    intros [_ [H|[_ [H|H]]]]; [discriminate H | tauto | tauto].
  - split; [discriminate|].
    intros [_ [H|[H _]]]; [discriminate H | tauto].
Qed.

(** ** The store *)

Lemma generate_filter_emitted (t : target) (h : heap) :
  generate_filter t h = Ok (emitted_bytes t, h ++ [emitted_records t]).
Proof.
  rewrite generate_filter_frame. unfold emitted_bytes, emitted_records.
  destruct t; cbn [generate_filter].
  - destruct (generate_x86_64_filter []) as [[bs h0]|e] eqn:E;
      vm_compute in E; [|discriminate].
    now injection E as <- <-.
  - destruct (generate_aarch64_filter []) as [[bs h0]|e] eqn:E;
      vm_compute in E; [|discriminate].
    now injection E as <- <-.
Qed.

(** X10: in any store a generator raises nothing, leaves every object
    it found as it was and adds one list: its records, 13 or 11 of
    them, each of 8 bytes, whose concatenation is what it returns. *)
Theorem X10_generator_store_effect (t : target) (h : heap) :
  exists bs recs,
    generate_filter t h = Ok (bs, h ++ [recs]) /\
    concat recs = bs /\
    length recs = insn_count t /\
    Forall (fun r => length r = 8%nat) recs.
Proof.
  exists (emitted_bytes t), (emitted_records t).
  split; [apply generate_filter_emitted|].
  destruct t; vm_compute; repeat split; repeat constructor.
Qed.

(** ** [main] *)

Lemma emits_emitted_bytes t : emits (generate_filter t) (emitted_bytes t).
Proof. intros h. eexists. apply generate_filter_emitted. Qed.


Section MainRun.

Variable env : Type.
Variable answer : env -> effect -> reply * env.
Variables (script_dir : path) (path_str : path -> String.string).

Lemma run_py_generate (t : target) (w : world env) :
  run_py (generate_filter t) w
  = Done (emitted_bytes t)
         (mk_world (w_heap w ++ [emitted_records t]) (w_env w) (w_trace w)).
Proof. unfold run_py. now rewrite generate_filter_emitted. Qed.

Let e1 := WriteBytes (x86_64_path script_dir) (emitted_bytes x86_64).
Let e2 := Print (line_x86_64 script_dir path_str).
Let e3 := WriteBytes (aarch64_path script_dir) (emitted_bytes aarch64).
Let e4 := Print (line_aarch64 script_dir path_str).
Let e5 := Print line_usage.
Let e6 := Print (line_command script_dir path_str).

(** What [main] does, by the answers it gets. *)
Lemma main_cases (w : world env) :
  main env answer script_dir path_str w =
  let hx := w_heap w ++ [emitted_records x86_64] in
  let hxa := hx ++ [emitted_records aarch64] in
  let t := w_trace w in
  match answer (w_env w) e1 with
  | (Raises x, s1) => Failed (env_exn x) (mk_world hx s1 (t ++ [e1]))
  | (Returns _, s1) =>
    match answer s1 e2 with
    | (Raises x, s2) =>
      Failed (env_exn x) (mk_world hx s2 ((t ++ [e1]) ++ [e2]))
    | (Returns _, s2) =>
      match answer s2 e3 with
      | (Raises x, s3) =>
        Failed (env_exn x)
               (mk_world hxa s3 (((t ++ [e1]) ++ [e2]) ++ [e3]))
      | (Returns _, s3) =>
        match answer s3 e4 with
        | (Raises x, s4) =>
          Failed (env_exn x)
                 (mk_world hxa s4 ((((t ++ [e1]) ++ [e2]) ++ [e3]) ++ [e4]))
        | (Returns _, s4) =>
          match answer s4 e5 with
          | (Raises x, s5) =>
            Failed (env_exn x)
                   (mk_world hxa s5
                      (((((t ++ [e1]) ++ [e2]) ++ [e3]) ++ [e4]) ++ [e5]))
          | (Returns _, s5) =>
            match answer s5 e6 with
            | (Raises x, s6) =>
              Failed (env_exn x)
                     (mk_world hxa s6
                        ((((((t ++ [e1]) ++ [e2]) ++ [e3]) ++ [e4])
                          ++ [e5]) ++ [e6]))
            | (Returns _, s6) =>
              Done tt
                   (mk_world hxa s6
                      ((((((t ++ [e1]) ++ [e2]) ++ [e3]) ++ [e4])
                        ++ [e5]) ++ [e6]))
            end
          end
        end
      end
    end
  end.
Proof.
  unfold main, print, write_bytes, io_bind.
  change generate_x86_64_filter with (generate_filter x86_64).
  change generate_aarch64_filter with (generate_filter aarch64).
  rewrite run_py_generate. cbv zeta.
  change (joinpath script_dir "tiocsti_filter_x86_64.bpf"%string)
    with (x86_64_path script_dir).
  change (joinpath script_dir "tiocsti_filter_aarch64.bpf"%string)
    with (aarch64_path script_dir).
  change (generated_line path_str (x86_64_path script_dir)
                         (emitted_bytes x86_64))
    with (line_x86_64 script_dir path_str).
  change (generated_line path_str (aarch64_path script_dir)
                         (emitted_bytes aarch64))
    with (line_aarch64 script_dir path_str).
  fold line_usage. fold (line_command script_dir path_str).
  fold e1 e2 e3 e4 e5 e6.
  unfold perform at 1. cbn [w_heap w_env w_trace].
  destruct (answer (w_env w) e1) as [[n1|x1] s1]; [|reflexivity].
  unfold perform at 1. cbn [w_heap w_env w_trace].
  destruct (answer s1 e2) as [[n2|x2] s2]; [|reflexivity].
  rewrite run_py_generate. cbn [w_heap w_env w_trace].
  change (generated_line path_str (aarch64_path script_dir)
                         (emitted_bytes aarch64))
    with (line_aarch64 script_dir path_str).
  fold e3 e4.
  unfold perform at 1. cbn [w_heap w_env w_trace].
  destruct (answer s2 e3) as [[n3|x3] s3]; [|reflexivity].
  unfold perform at 1. cbn [w_heap w_env w_trace].
  destruct (answer s3 e4) as [[n4|x4] s4]; [|reflexivity].
  unfold perform at 1. cbn [w_heap w_env w_trace].
  destruct (answer s4 e5) as [[n5|x5] s5]; [|reflexivity].
  unfold perform at 1. cbn [w_heap w_env w_trace].
  destruct (answer s5 e6) as [[n6|x6] s6]; reflexivity.
Qed.

End MainRun.

(** X11: on a machine where no call raises, [main] ends normally after
    making exactly six calls, in this order: it writes the bytes
    [generate_x86_64_filter] returns to the x86_64 path, prints that
    file's line (104 bytes, 13 instructions), writes the bytes
    [generate_aarch64_filter] returns to the aarch64 path, prints its
    line (88 bytes, 11 instructions), then prints the two lines of the
    bwrap hint. *)
Theorem X11_main_calls_in_order (env : Type)
    (answer : env -> effect -> reply * env)
    (script_dir : path) (path_str : path -> String.string)
    (w : world env) :
  (forall s e, exists n s', answer s e = (Returns n, s')) ->
  exists w' bx ba,
    main env answer script_dir path_str w = Done tt w' /\
    emits generate_x86_64_filter bx /\
    emits generate_aarch64_filter ba /\
    w_trace w' = w_trace w ++ main_calls script_dir path_str bx ba.
Proof.
  intros Hret. rewrite main_cases. cbv zeta.
  repeat match goal with
         | |- context [answer ?s ?e] =>
           let n := fresh "n" in
           let s' := fresh "s" in
           destruct (Hret s e) as (n & s' & ->)
         end.
  eexists _, (emitted_bytes x86_64), (emitted_bytes aarch64).
  split; [reflexivity|].
  split; [exact (emits_emitted_bytes x86_64)|].
  split; [exact (emits_emitted_bytes aarch64)|].
  cbn [w_trace]. rewrite <- !app_assoc. reflexivity.
Qed.

Lemma X11_main_calls_in_order_witness :
  let answer := fun (s : unit) (e : effect) => (Returns 0, s) in
  let w := mk_world [] tt [] in
  (forall s e, exists n s', answer s e = (Returns n, s')) /\
  exists w' bx ba,
    main unit answer ["d"%string] (String.concat "/"%string) w
    = Done tt w' /\
    emits generate_x86_64_filter bx /\
    emits generate_aarch64_filter ba /\
    w_trace w' =
    w_trace w ++ main_calls ["d"%string] (String.concat "/"%string) bx ba.
Proof.
  intros answer w.
  assert (H : forall s e, exists n s', answer s e = (Returns n, s'))
    by (intros s e; exists 0%nat, s; reflexivity).
  split; [exact H|].
  exact (X11_main_calls_in_order unit answer ["d"%string]
           (String.concat "/"%string) w H).
Defined.






